(** * Shallow embedding of [bevy_window::raw_handle]

    The module wraps a native window in an [Arc] ([WindowWrapper]), derives
    a type-erased, thread-shareable [RawHandleWrapper] from it, and exposes
    the window and display handles only through the unsafely constructed
    [ThreadLockedRawWindowHandleWrapper].

    Reference counting is modelled by an explicit heap of [Arc] allocations:
    each allocation has a strong count and a counter of how many times its
    contents have been dropped.  The contents are immutable ([Arc] gives
    only shared access), so an [Arc] value carries its pointer together with
    the value it points to. *)

From stdpp Require Import base gmap list.
From Stdlib Require Strings.String.
Import (notations) Stdlib.Strings.String.

(** ** Types of the [raw_window_handle] crate *)

(** [raw_window_handle::HandleError] *)
Inductive HandleError :=
| NotSupported
| Unavailable.

(** [RawWindowHandle]; platform variants with their pointer-sized ids. *)
Inductive RawWindowHandle :=
| RWH_Xlib (window : Z)
| RWH_Wayland (surface : Z)
| RWH_Win32 (hwnd : Z)
| RWH_AppKit (ns_view : Z)
| RWH_Web (id : Z).

(** [RawDisplayHandle] *)
Inductive RawDisplayHandle :=
| RDH_Xlib (display : Z)
| RDH_Wayland (display : Z)
| RDH_Windows
| RDH_AppKit
| RDH_Web.

(** [WindowHandle<'a>] and [DisplayHandle<'a>]: borrowed wrappers over the
    raw handles (the lifetime has no runtime content). *)
Record WindowHandle := { wh_raw : RawWindowHandle }.
Record DisplayHandle := { dh_raw : RawDisplayHandle }.

(** Rust's [Result]. *)
Inductive result (A E : Type) :=
| Ok (a : A)
| Err (e : E).
Arguments Ok {A E} a.
Arguments Err {A E} e.

(** The traits [HasWindowHandle] and [HasDisplayHandle]. *)
Class HasWindowHandle (T : Type) :=
  window_handle : T -> result WindowHandle HandleError.
Class HasDisplayHandle (T : Type) :=
  display_handle : T -> result DisplayHandle HandleError.

(** ** [std::sync::Arc] over an explicit heap *)

Definition loc := nat.

Record Arc (T : Type) := mkArc { arc_ptr : loc; arc_val : T }.
Arguments mkArc {T} arc_ptr arc_val.
Arguments arc_ptr {T} a.
Arguments arc_val {T} a.

(** [strong]: the strong count of each live allocation; [dropped]: how many
    times the contents of an allocation have been destroyed. *)
Record Heap := mkHeap {
  strong : gmap loc nat;
  dropped : gmap loc nat;
  next_loc : loc
}.

Definition empty_heap : Heap := mkHeap ∅ ∅ 0.

(** Functions that touch reference counts pass the heap explicitly. *)
Definition ST (A : Type) := Heap -> A * Heap.

(** [Arc::new]: a fresh allocation with strong count 1. *)
Definition arc_new {T} (v : T) : ST (Arc T) := fun h =>
  (mkArc (next_loc h) v,
   mkHeap (<[next_loc h := 1]> (strong h)) (dropped h) (S (next_loc h))).

(** [Arc::clone]: increments the strong count, returns the same pointer. *)
Definition arc_clone {T} (a : Arc T) : ST (Arc T) := fun h =>
  (a, mkHeap (alter S (arc_ptr a) (strong h)) (dropped h) (next_loc h)).

(** [<Arc as Drop>::drop]: [fetch_sub(1)]; only the decrement that sees the
    count 1 runs [drop_slow], which destroys the contents. *)
Definition arc_drop {T} (a : Arc T) (h : Heap) : Heap :=
  let l := arc_ptr a in
  match strong h !! l with
  | Some 1 =>
      mkHeap (delete l (strong h))
             (<[l := S (default 0 (dropped h !! l))]> (dropped h))
             (next_loc h)
  | Some (S (S n)) =>
      mkHeap (<[l := S n]> (strong h)) (dropped h) (next_loc h)
  | _ => h
  end.

(** ** [WindowWrapper<W>] *)

Record WindowWrapper (W : Type) := mkWindowWrapper { reference : Arc W }.
Arguments mkWindowWrapper {W} reference.
Arguments reference {W} w.

(** [WindowWrapper::new] *)
Definition WindowWrapper_new {W} (window : W) : ST (WindowWrapper W) := fun h =>
  let '(r, h') := arc_new window h in (mkWindowWrapper r, h').

(** [<WindowWrapper<W> as Deref>::deref]: [&self.reference], auto-derefed
    through the [Arc]. *)
Definition WindowWrapper_deref {W} (self : WindowWrapper W) : W :=
  arc_val (reference self).

(** ** [dyn WindowTrait]

    A trait object: the erased concrete type, its vtable (the two trait
    methods) and the value. *)
Record DynWindowTrait := mkDyn {
  dyn_ty : Type;
  dyn_window_handle : dyn_ty -> result WindowHandle HandleError;
  dyn_display_handle : dyn_ty -> result DisplayHandle HandleError;
  dyn_self : dyn_ty
}.

(** The blanket [impl<T: HasWindowHandle + HasDisplayHandle> WindowTrait for T]
    together with the unsizing coercion [W -> dyn WindowTrait]. *)
Definition to_dyn {W} `{HasWindowHandle W} `{HasDisplayHandle W} (w : W)
  : DynWindowTrait :=
  mkDyn W window_handle display_handle w.

(** Method calls on [dyn WindowTrait] go through the vtable. *)
#[global] Instance dyn_HasWindowHandle : HasWindowHandle DynWindowTrait :=
  fun d => dyn_window_handle d (dyn_self d).
#[global] Instance dyn_HasDisplayHandle : HasDisplayHandle DynWindowTrait :=
  fun d => dyn_display_handle d (dyn_self d).

(** The coercion [Arc<W> -> Arc<dyn WindowTrait>]: same allocation. *)
Definition arc_unsize {W} `{HasWindowHandle W} `{HasDisplayHandle W}
  (a : Arc W) : Arc DynWindowTrait :=
  mkArc (arc_ptr a) (to_dyn (arc_val a)).

(** ** [RawHandleWrapper] *)

Record RawHandleWrapper := mkRawHandleWrapper { window : Arc DynWindowTrait }.

(** [#[derive(Clone)]]: clones the [Arc] field. *)
Definition RawHandleWrapper_clone (self : RawHandleWrapper) : ST RawHandleWrapper :=
  fun h => let '(w, h') := arc_clone (window self) h in (mkRawHandleWrapper w, h').

(** Drop glue of [RawHandleWrapper]. *)
Definition RawHandleWrapper_drop (self : RawHandleWrapper) (h : Heap) : Heap :=
  arc_drop (window self) h.

(** [RawHandleWrapper::new]:
    [Ok(RawHandleWrapper { window: window.reference.clone() })] *)
Definition RawHandleWrapper_new {W} `{HasWindowHandle W} `{HasDisplayHandle W}
  (window : WindowWrapper W) : ST (result RawHandleWrapper HandleError) :=
  fun h =>
    let '(r, h') := arc_clone (reference window) h in
    (Ok (mkRawHandleWrapper (arc_unsize r)), h').

(** ** [ThreadLockedRawWindowHandleWrapper] *)

Record ThreadLockedRawWindowHandleWrapper := mkThreadLocked {
  tl_inner : RawHandleWrapper
}.

(** [unsafe fn get_handle(&self)]: [ThreadLockedRawWindowHandleWrapper(self.clone())] *)
Definition get_handle (self : RawHandleWrapper) : ST ThreadLockedRawWindowHandleWrapper :=
  fun h => let '(c, h') := RawHandleWrapper_clone self h in (mkThreadLocked c, h').

(** [self.0.window.window_handle()] *)
#[global] Instance ThreadLocked_HasWindowHandle
  : HasWindowHandle ThreadLockedRawWindowHandleWrapper :=
  fun self => window_handle (arc_val (window (tl_inner self))).

(** [self.0.window.display_handle()] *)
#[global] Instance ThreadLocked_HasDisplayHandle
  : HasDisplayHandle ThreadLockedRawWindowHandleWrapper :=
  fun self => display_handle (arc_val (window (tl_inner self))).

(** Drop glue of the accessor: drops the wrapped [RawHandleWrapper]. *)
Definition ThreadLocked_drop (self : ThreadLockedRawWindowHandleWrapper) (h : Heap) : Heap :=
  RawHandleWrapper_drop (tl_inner self) h.

(** ** Clients of the module

    A client creates one [WindowWrapper] and then, in any order, derives
    capsules from it, clones capsules, requests gated access and drops any
    of the values it holds.  [WindowWrapper] is not [Clone] and the
    accessor is neither [Clone] nor constructible outside the module, so
    these are all the operations available to a client. *)
Section Client.
Context {W : Type} `{HasWindowHandle W} `{HasDisplayHandle W}.

(** A value held by the client. *)
Inductive Obj :=
| OHolder (w : WindowWrapper W)
| OCapsule (c : RawHandleWrapper)
| OAccessor (a : ThreadLockedRawWindowHandleWrapper).

(** The allocation a value keeps alive. *)
Definition obj_ptr (o : Obj) : loc :=
  match o with
  | OHolder w => arc_ptr (reference w)
  | OCapsule c => arc_ptr (window c)
  | OAccessor a => arc_ptr (window (tl_inner a))
  end.

(** Drop glue of a held value. *)
Definition obj_drop (o : Obj) (h : Heap) : Heap :=
  match o with
  | OHolder w => arc_drop (reference w) h
  | OCapsule c => RawHandleWrapper_drop c h
  | OAccessor a => ThreadLocked_drop a h
  end.

(** Client operations, each naming the index of the value it applies to. *)
Inductive Op :=
| OpCapsule (i : nat)    (* RawHandleWrapper::new(&holder) *)
| OpClone (i : nat)      (* capsule.clone() *)
| OpGetHandle (i : nat)  (* unsafe { capsule.get_handle() } *)
| OpDrop (i : nat).      (* drop(value) *)

Definition Client := (list Obj * Heap)%type.

(** One operation; an operation on a value of the wrong kind or a missing
    index does not type-check in Rust and leaves the state as it is. *)
Definition step (s : Client) (op : Op) : Client :=
  let '(live, h) := s in
  match op with
  | OpCapsule i =>
      match live !! i with
      | Some (OHolder w) =>
          let '(r, h') := RawHandleWrapper_new w h in
          match r with
          | Ok c => (live ++ [OCapsule c], h')
          | Err _ => (live, h')
          end
      | _ => s
      end
  | OpClone i =>
      match live !! i with
      | Some (OCapsule c) =>
          let '(c', h') := RawHandleWrapper_clone c h in (live ++ [OCapsule c'], h')
      | _ => s
      end
  | OpGetHandle i =>
      match live !! i with
      | Some (OCapsule c) =>
          let '(a, h') := get_handle c h in (live ++ [OAccessor a], h')
      | _ => s
      end
  | OpDrop i =>
      match live !! i with
      | Some o => (delete i live, obj_drop o h)
      | None => s
      end
  end.

Fixpoint run (s : Client) (ops : list Op) : Client :=
  match ops with
  | [] => s
  | op :: ops' => run (step s op) ops'
  end.

(** The client state right after [WindowWrapper::new(window)]. *)
Definition start (window : W) : Client :=
  let '(w, h) := WindowWrapper_new window empty_heap in ([OHolder w], h).

(** Number of [get_handle] calls in a sequence of operations. *)
Definition count_get_handle (ops : list Op) : nat :=
  List.length (List.filter (fun op => match op with OpGetHandle _ => true | _ => false end) ops).

Definition is_accessor (o : Obj) : bool :=
  match o with OAccessor _ => true | _ => false end.

(** [n] successive [get_handle] calls on one capsule. *)
Fixpoint get_handle_n (n : nat) (c : RawHandleWrapper)
  : ST (list ThreadLockedRawWindowHandleWrapper) := fun h =>
  match n with
  | 0 => ([], h)
  | S n' =>
      let '(a, h1) := get_handle c h in
      let '(as_, h2) := get_handle_n n' c h1 in (a :: as_, h2)
  end.

End Client.

(** ** A stub window binding

    A window-binding type whose handles are fixed values, or that fails to
    produce them, as the test scenarios of the module use. *)
Record StubWindow := mkStub {
  stub_id : Z;
  stub_fails : bool
}.

#[global] Instance Stub_HasWindowHandle : HasWindowHandle StubWindow :=
  fun s => if stub_fails s then Err Unavailable
           else Ok {| wh_raw := RWH_Xlib (stub_id s) |}.
#[global] Instance Stub_HasDisplayHandle : HasDisplayHandle StubWindow :=
  fun s => if stub_fails s then Err Unavailable
           else Ok {| dh_raw := RDH_Xlib 1 |}.

(** ** Lifetime invariant of a client run *)
Section Lifetime.
Context {W : Type} `{HasWindowHandle W} `{HasDisplayHandle W}.

(** A held value points to allocation [l], which holds [w0]. *)
Definition obj_carries (w0 : W) (l : loc) (o : Obj) : Prop :=
  obj_ptr o = l /\
  match o with
  | OHolder w => arc_val (reference w) = w0
  | OCapsule c => arc_val (window c) = to_dyn w0
  | OAccessor a => arc_val (window (tl_inner a)) = to_dyn w0
  end.

Definition live_count (n : nat) : option nat :=
  match n with 0 => None | _ => Some n end.
Definition drop_count (n : nat) : option nat :=
  match n with 0 => Some 1 | _ => None end.

(** Every held value shares the one allocation; its strong count is the
    number of held values; its contents are destroyed once, when none is
    held any more, and not before. *)
Definition Inv (w0 : W) (l : loc) (s : Client) : Prop :=
  Forall (obj_carries w0 l) s.1 /\
  strong s.2 !! l = live_count (length s.1) /\
  dropped s.2 !! l = drop_count (length s.1).

End Lifetime.

(** Constructing a capsule reports a failure of the window binding to
    produce a handle as the construction's error. *)
Definition new_propagates_errors : Prop :=
  forall (W : Type) (HW : HasWindowHandle W) (HD : HasDisplayHandle W)
         (ww : WindowWrapper W) (h : Heap) (e : HandleError),
    (window_handle (WindowWrapper_deref ww) = Err e \/
     display_handle (WindowWrapper_deref ww) = Err e) ->
    (RawHandleWrapper_new ww h).1 = Err e.

(** Number of accessors among the held values. *)
Definition count_accessors {W} (live : list (Obj (W:=W))) : nat :=
  List.length (List.filter is_accessor live).

(** ** Concrete scenarios *)

(** The stub window with id 42, and one that cannot produce handles. *)
Definition stub42 : StubWindow := mkStub 42 false.
Definition stub_failing : StubWindow := mkStub 42 true.

(** Derive a capsule from the holder (index 0), then gate it (index 1). *)
Definition ops_gate : list Op := [OpCapsule 0; OpGetHandle 1].

(** The capsule over the first allocation holding [stub42]. *)
Definition cap42 : RawHandleWrapper := mkRawHandleWrapper (mkArc 0 (to_dyn stub42)).

(** The accessor that [ops_gate] leaves at index 2. *)
Definition acc42 : ThreadLockedRawWindowHandleWrapper := mkThreadLocked cap42.

(** The spec scenario: capsule, three clones, drop the holder and two
    clones, then the rest. *)
Definition ops_scenario : list Op :=
  [OpCapsule 0; OpClone 1; OpClone 1; OpClone 1;
   OpDrop 0; OpDrop 0; OpDrop 0].
Definition ops_scenario_end : list Op := ops_scenario ++ [OpDrop 0; OpDrop 0].

(** ** [std::fmt] for the two [Debug] impls

    [Formatter::debug_struct] in the single-line ([{:?}]) format: the
    builder keeps the text written so far and whether a field was written. *)
Record DebugStruct := mkDebugStruct {
  ds_buf : String.string;
  ds_has_fields : bool
}.

Definition debug_struct (name : String.string) : DebugStruct :=
  mkDebugStruct name false.

(** [DebugStruct::field]: [" { name: value"] for the first field,
    [", name: value"] for later ones. *)
Definition ds_field (d : DebugStruct) (name value : String.string) : DebugStruct :=
  mkDebugStruct
    (String.append (ds_buf d)
      (String.append (if ds_has_fields d then ", "%string else " { "%string)
        (String.append name (String.append ": "%string value))))
    true.

(** [DebugStruct::finish] *)
Definition ds_finish (d : DebugStruct) : String.string :=
  if ds_has_fields d then String.append (ds_buf d) " }"%string else ds_buf d.

(** [DebugStruct::finish_non_exhaustive] *)
Definition ds_finish_non_exhaustive (d : DebugStruct) : String.string :=
  String.append (ds_buf d)
    (if ds_has_fields d then ", .. }"%string else " { .. }"%string).

(** [impl fmt::Debug for RawHandleWrapper]:
    [f.debug_struct("RawHandleWrapper").finish_non_exhaustive()] *)
Definition RawHandleWrapper_fmt (self : RawHandleWrapper) : String.string :=
  ds_finish_non_exhaustive (debug_struct "RawHandleWrapper"%string).

(** [#[derive(Debug)]] on [WindowWrapper<W>], given [W]'s [Debug]; the
    [Debug] of [Arc<W>] forwards to [W]. *)
Definition WindowWrapper_fmt {W} (fmt_W : W -> String.string)
  (self : WindowWrapper W) : String.string :=
  ds_finish (ds_field (debug_struct "WindowWrapper"%string) "reference"%string
                      (fmt_W (arc_val (reference self)))).

(** ** Heap shape *)

(** No allocation at or past [next_loc] has been handed out. *)
Definition heap_wf (h : Heap) : Prop :=
  forall l, next_loc h <= l -> strong h !! l = None /\ dropped h !! l = None.

(** Two heaps agree on allocation [l]. *)
Definition unchanged_at (l : loc) (h h' : Heap) : Prop :=
  strong h' !! l = strong h !! l /\ dropped h' !! l = dropped h !! l.

(** Dropping a list of accessors, first to last. *)
Definition drop_all (accs : list ThreadLockedRawWindowHandleWrapper) (h : Heap) : Heap :=
  fold_left (fun h a => ThreadLocked_drop a h) accs h.

(** ** Lemmas *)

Section LifetimeProofs.
Context {W : Type} `{HasWindowHandle W} `{HasDisplayHandle W}.

Lemma obj_drop_ptr (o : Obj (W:=W)) (h : Heap) :
  obj_drop o h = arc_drop (mkArc (obj_ptr o) tt) h.
Proof. by destruct o. Qed.

Lemma inv_start (w0 : W) : Inv w0 0 (start w0).
Proof.
  split; [|split]; simpl.
  - constructor; [by split|constructor].
  - by rewrite lookup_insert_eq.
  - done.
Qed.

Lemma inv_push (w0 : W) (live : list Obj) (h : Heap) (i : nat) (o' o : Obj) :
  Inv w0 0 (live, h) -> live !! i = Some o' -> obj_carries w0 0 o ->
  Inv w0 0 (live ++ [o], mkHeap (alter S 0 (strong h)) (dropped h) (next_loc h)).
Proof.
  intros (Hall & Hs & Hd) Hi Ho; unfold Inv; simpl in *.
  apply lookup_lt_Some in Hi.
  rewrite length_app; simpl.
  destruct (length live) as [|n] eqn:Hn; [lia|].
  split; [|split]; simpl.
  - apply Forall_app; split; [done|by constructor].
  - rewrite lookup_alter_eq, Hs; simpl. f_equal; lia.
  - rewrite Hd. by replace (n + 1) with (S n) by lia.
Qed.

Lemma inv_drop (w0 : W) (live : list Obj) (h : Heap) (i : nat) (o : Obj) :
  Inv w0 0 (live, h) -> live !! i = Some o ->
  Inv w0 0 (delete i live, obj_drop o h).
Proof.
  intros (Hall & Hs & Hd) Hi; unfold Inv; simpl in *.
  assert (Hptr : obj_ptr o = 0) by (eapply (Forall_lookup_1 _ _ _ _ Hall Hi)).
  assert (Hlen : length (delete i live) = length live - 1)
    by (apply length_delete; by eexists).
  apply lookup_lt_Some in Hi.
  rewrite obj_drop_ptr; unfold arc_drop; simpl; rewrite Hptr, Hs.
  destruct (length live) as [|[|n]] eqn:Hn; [lia| |].
  - split; [|split]; simpl; try rewrite Hlen; simpl.
    + by apply Forall_delete.
    + by rewrite lookup_delete_eq.
    + by rewrite lookup_insert_eq, Hd.
  - split; [|split]; simpl; try rewrite Hlen; simpl.
    + by apply Forall_delete.
    + by rewrite lookup_insert_eq.
    + by rewrite Hd.
Qed.

Lemma inv_step (w0 : W) (s : Client) (op : Op) :
  Inv w0 0 s -> Inv w0 0 (step s op).
Proof.
  destruct s as [live h]; intros Hinv.
  pose proof (proj1 Hinv) as Hall.
  destruct op as [i|i|i|i]; simpl;
    destruct (live !! i) as [o|] eqn:Hi; try exact Hinv.
  - destruct o as [w|c|a]; try exact Hinv.
    destruct (Forall_lookup_1 _ _ _ _ Hall Hi) as [Hp Hv]; simpl in Hp, Hv.
    unfold RawHandleWrapper_new, arc_clone; simpl; rewrite Hp.
    eapply inv_push; [exact Hinv|exact Hi|].
    split; simpl; [done|by rewrite Hv].
  - destruct o as [w|c|a]; try exact Hinv.
    destruct (Forall_lookup_1 _ _ _ _ Hall Hi) as [Hp Hv]; simpl in Hp, Hv.
    unfold RawHandleWrapper_clone, arc_clone; simpl; rewrite Hp.
    eapply inv_push; [exact Hinv|exact Hi|].
    split; simpl; done.
  - destruct o as [w|c|a]; try exact Hinv.
    destruct (Forall_lookup_1 _ _ _ _ Hall Hi) as [Hp Hv]; simpl in Hp, Hv.
    unfold get_handle, RawHandleWrapper_clone, arc_clone; simpl; rewrite Hp.
    eapply inv_push; [exact Hinv|exact Hi|].
    split; simpl; done.
  - by eapply inv_drop.
Qed.

Lemma inv_run (w0 : W) (ops : list Op) (s : Client) :
  Inv w0 0 s -> Inv w0 0 (run s ops).
Proof.
  revert s; induction ops as [|op ops IH]; intros s Hs; simpl; [done|].
  apply IH, inv_step, Hs.
Qed.

Lemma inv_run_start (w0 : W) (ops : list Op) : Inv w0 0 (run (start w0) ops).
Proof. apply inv_run, inv_start. Qed.

End LifetimeProofs.

Example scenario_alive :
  let s := run (start stub42) ops_scenario in
  length s.1 = 2 /\ strong s.2 !! 0 = Some 2 /\ dropped s.2 !! 0 = None.
Proof. vm_compute. auto. Qed.

Example scenario_destroyed :
  let s := run (start stub42) ops_scenario_end in
  s.1 = [] /\ strong s.2 !! 0 = None /\ dropped s.2 !! 0 = Some 1.
Proof. vm_compute. auto. Qed.

Example gate_result :
  (run (start stub42) ops_gate).1 !! 2 = Some (OAccessor acc42).
Proof. reflexivity. Qed.

Example gate_handle : window_handle acc42 = Ok {| wh_raw := RWH_Xlib 42 |}.
Proof. reflexivity. Qed.

Section ClaimProofs.
Context {W : Type} `{HasWindowHandle W} `{HasDisplayHandle W}.

Lemma count_accessors_app (l1 l2 : list (Obj (W:=W))) :
  count_accessors (l1 ++ l2) = count_accessors l1 + count_accessors l2.
Proof. unfold count_accessors. by rewrite List.filter_app, length_app. Qed.

Lemma count_accessors_delete (live : list (Obj (W:=W))) (i : nat) :
  count_accessors (delete i live) <= count_accessors live.
Proof.
  unfold count_accessors.
  revert i; induction live as [|o live IH]; intros [|i]; simpl; try lia.
  - destruct (is_accessor o); simpl; lia.
  - destruct (is_accessor o); simpl; specialize (IH i); lia.
Qed.

Lemma count_accessors_step (s : Client (W:=W)) (op : Op) :
  count_accessors (step s op).1 <= count_accessors s.1 + count_get_handle [op].
Proof.
  destruct s as [live h].
  destruct op as [i|i|i|i]; simpl;
    destruct (live !! i) as [o|] eqn:Hi; simpl; try lia;
    destruct o; simpl; try lia;
    rewrite ?count_accessors_app;
    pose proof (count_accessors_delete live i);
    unfold count_get_handle, count_accessors in *; simpl in *; lia.
Qed.

Lemma count_accessors_run (s : Client (W:=W)) (ops : list Op) :
  count_accessors (run s ops).1 <= count_accessors s.1 + count_get_handle ops.
Proof.
  revert s; induction ops as [|op ops IH]; intros s; simpl; [lia|].
  specialize (IH (step s op)). pose proof (count_accessors_step s op).
  unfold count_get_handle in *; simpl in *.
  destruct op; simpl in *; lia.
Qed.

(** A held accessor reports exactly the handles of the wrapped window. *)
Lemma run_accessor_handles (w0 : W) (ops : list Op) (i : nat)
  (a : ThreadLockedRawWindowHandleWrapper) :
  (run (start w0) ops).1 !! i = Some (OAccessor a) ->
  window_handle a = window_handle w0 /\ display_handle a = display_handle w0.
Proof.
  intros Ha.
  destruct (inv_run_start w0 ops) as [Hall _].
  destruct (Forall_lookup_1 _ _ _ _ Hall Ha) as [_ Hv]; simpl in Hv.
  cbv [window_handle display_handle ThreadLocked_HasWindowHandle
       ThreadLocked_HasDisplayHandle dyn_HasWindowHandle dyn_HasDisplayHandle].
  rewrite Hv. split; reflexivity.
Qed.

(** [n] calls of [get_handle] on one capsule. *)
Lemma get_handle_n_spec (c : RawHandleWrapper) (n : nat) (h : Heap) (k : nat) :
  strong h !! arc_ptr (window c) = Some k ->
  get_handle_n n c h =
    (repeat (mkThreadLocked c) n,
     mkHeap (<[arc_ptr (window c) := k + n]> (strong h)) (dropped h) (next_loc h)).
Proof.
  destruct c as [[p d]]; simpl.
  revert h k; induction n as [|n IH]; intros [st dr nx] k Hk; simpl in *.
  - rewrite Nat.add_0_r, insert_id; done.
  - rewrite (IH (mkHeap (alter S p st) dr nx) (S k)); simpl.
    + rewrite insert_alter_eq. do 3 f_equal. lia.
    + by rewrite lookup_alter_eq, Hk.
Qed.

End ClaimProofs.

(** ** Claims *)

Section Claims.
Context {W : Type} `{HasWindowHandle W} `{HasDisplayHandle W}.

(** C1: an accessor obtained, through any sequence of capsule creations,
    clones and gated-access requests, from a holder of the window [w0]
    returns from [window_handle] and [display_handle] exactly the results
    of [w0]'s own [window_handle] and [display_handle]. *)
Theorem accessor_handles_pass_through (w0 : W) (ops : list Op) (i : nat)
  (a : ThreadLockedRawWindowHandleWrapper)
  (Ha : (run (start w0) ops).1 !! i = Some (OAccessor a)) :
  window_handle a = window_handle w0 /\ display_handle a = display_handle w0.
Proof. exact (run_accessor_handles w0 ops i a Ha). Qed.

(** C2: for every such accessor and error [e], the accessor's
    [window_handle] (resp. [display_handle]) returns [Err e] exactly when
    the window's own operation returns [Err e]; both are total functions
    (no panic) and hand the error back unchanged. *)
Theorem accessor_errors_propagated (w0 : W) (ops : list Op) (i : nat)
  (a : ThreadLockedRawWindowHandleWrapper)
  (Ha : (run (start w0) ops).1 !! i = Some (OAccessor a)) (e : HandleError) :
  (window_handle a = Err e <-> window_handle w0 = Err e) /\
  (display_handle a = Err e <-> display_handle w0 = Err e).
Proof.
  destruct (run_accessor_handles w0 ops i a Ha) as [Hw Hd].
  rewrite Hw, Hd. tauto.
Qed.

(** C3 (amended): [RawHandleWrapper::new] never queries the window's
    handles: it returns [Ok] with a capsule sharing the holder's allocation,
    whatever the binding's handle operations return; a binding that cannot
    produce a handle reports it only through the [window_handle] and
    [display_handle] of an accessor gated from that capsule. *)
Theorem new_ok_errors_from_accessor (ww : WindowWrapper W) (h : Heap) :
  (RawHandleWrapper_new ww h).1 = Ok (mkRawHandleWrapper (arc_unsize (reference ww))) /\
  forall h' : Heap,
    window_handle (get_handle (mkRawHandleWrapper (arc_unsize (reference ww))) h').1
      = window_handle (WindowWrapper_deref ww) /\
    display_handle (get_handle (mkRawHandleWrapper (arc_unsize (reference ww))) h').1
      = display_handle (WindowWrapper_deref ww).
Proof. split; [reflexivity|]. intros h'. split; reflexivity. Qed.

(** C4: starting from one [WindowWrapper::new(w0)], after any sequence of
    capsule creations, clones, gated-access requests and drops in any
    order, every held value shares the holder's allocation; while some
    value is held the window has not been destroyed and the strong count is
    the number of held values; once none is held it has been destroyed
    exactly once. *)
Theorem window_destroyed_exactly_once (w0 : W) (ops : list Op) :
  let s := run (start w0) ops in
  let l := arc_ptr (reference (WindowWrapper_new w0 empty_heap).1) in
  Forall (fun o => obj_ptr o = l) s.1 /\
  (s.1 = [] -> dropped s.2 !! l = Some 1) /\
  (s.1 <> [] -> dropped s.2 !! l = None /\ strong s.2 !! l = Some (length s.1)).
Proof.
  simpl. destruct (inv_run_start w0 ops) as (Hall & Hs & Hd).
  split; [|split].
  - eapply Forall_impl; [exact Hall|]. by intros o [Hp _].
  - intros He. rewrite Hd, He. reflexivity.
  - intros Hne. rewrite Hd, Hs.
    destruct (run (start w0) ops).1; [done|]. split; reflexivity.
Qed.

(** C5: [get_handle] always returns an accessor wrapping the capsule, with
    the capsule's strong count incremented; it has no failure result. *)
Theorem get_handle_always_succeeds (c : RawHandleWrapper) (h : Heap) :
  get_handle c h =
    (mkThreadLocked c,
     mkHeap (alter S (arc_ptr (window c)) (strong h)) (dropped h) (next_loc h)).
Proof. destruct c; reflexivity. Qed.

(** C6: dereferencing the holder built from [r] gives [r], and every holder
    held during a client run started from [r] dereferences to [r]. *)
Theorem deref_new_roundtrip (r : W) (h : Heap) :
  WindowWrapper_deref (WindowWrapper_new r h).1 = r /\
  forall (ops : list Op) (i : nat) (w : WindowWrapper W),
    (run (start r) ops).1 !! i = Some (OHolder w) -> WindowWrapper_deref w = r.
Proof.
  split; [reflexivity|].
  intros ops i w Hw.
  destruct (inv_run_start r ops) as [Hall _].
  by destruct (Forall_lookup_1 _ _ _ _ Hall Hw).
Qed.

(** C7: the accessor returned by [get_handle] owns exactly one capsule, the
    clone of the given one, which holds its own strong reference (the count
    goes up by one); and in any client run there are never more accessors
    than [get_handle] calls, since nothing else produces one. *)
Theorem accessor_owns_capsule (c : RawHandleWrapper) (h : Heap) (k : nat)
  (Hk : strong h !! arc_ptr (window c) = Some k) :
  tl_inner (get_handle c h).1 = c /\
  strong (get_handle c h).2 !! arc_ptr (window c) = Some (S k) /\
  forall (w0 : W) (ops : list Op),
    count_accessors (run (start w0) ops).1 <= count_get_handle ops.
Proof.
  split; [|split].
  - by destruct c.
  - destruct c; simpl in *. by rewrite lookup_alter_eq, Hk.
  - intros w0 ops. pose proof (count_accessors_run (start w0) ops).
    simpl in *. lia.
Qed.

(** C8: no operation changes the window or an existing value: every value
    held in a client run still carries the original window in the original
    allocation; each step either appends new values to the held ones or
    only removes the dropped one; and no step but a drop destroys anything
    or allocates anything. *)
Theorem operations_preserve_resource (w0 : W) (ops : list Op) :
  Forall (obj_carries w0 (arc_ptr (reference (WindowWrapper_new w0 empty_heap).1)))
         (run (start w0) ops).1 /\
  (forall (s : Client) (op : Op),
     (exists extra, (step s op).1 = s.1 ++ extra) \/
     (exists i, op = OpDrop i /\ (step s op).1 = delete i s.1)) /\
  (forall (s : Client) (op : Op),
     (forall i, op <> OpDrop i) ->
     dropped (step s op).2 = dropped s.2 /\ next_loc (step s op).2 = next_loc s.2).
Proof.
  split; [|split].
  - exact (proj1 (inv_run_start w0 ops)).
  - intros [live h] [i|i|i|i]; simpl;
      destruct (live !! i) as [o|] eqn:Hi;
      try (left; exists []; by rewrite app_nil_r);
      try (right; by exists i).
    + destruct o; try (left; exists []; by rewrite app_nil_r).
      left; by eexists.
    + destruct o; try (left; exists []; by rewrite app_nil_r).
      left; by eexists.
    + destruct o; try (left; exists []; by rewrite app_nil_r).
      left; by eexists.
  - intros [live h] [i|i|i|i] Hop; simpl;
      destruct (live !! i) as [o|] eqn:Hi; try done;
      try (destruct o; done).
    exfalso; by apply (Hop i).
Qed.

(** C9: [RawHandleWrapper::new] returns [Ok] for every holder. *)
Theorem new_never_fails (ww : WindowWrapper W) (h : Heap) :
  exists c, (RawHandleWrapper_new ww h).1 = Ok c.
Proof. by eexists. Qed.

(** C10: [n] calls of [get_handle] on a capsule whose allocation has strong
    count [k] leave the capsule as it is, return [n] accessors each wrapping
    a clone of it, and leave the count at [k + n], so the capsule stays
    usable and the accessors coexist. *)
Theorem get_handle_keeps_capsule (c : RawHandleWrapper) (h : Heap) (k : nat)
  (Hk : strong h !! arc_ptr (window c) = Some k) (n : nat) :
  get_handle_n n c h =
    (repeat (mkThreadLocked c) n,
     mkHeap (<[arc_ptr (window c) := k + n]> (strong h)) (dropped h) (next_loc h)).
Proof. exact (get_handle_n_spec c n h k Hk). Qed.

End Claims.

(** C3: the claim as stated fails: a window whose handle operations fail
    still gets a capsule, [RawHandleWrapper::new] returns [Ok]. *)
Lemma new_propagates_errors_fails : ~ new_propagates_errors.
Proof.
  intros Hp.
  specialize (Hp StubWindow _ _ (mkWindowWrapper (mkArc 0 stub_failing))
                 empty_heap Unavailable (or_introl eq_refl)).
  discriminate Hp.
Qed.


(** ** Witnesses *)

Lemma accessor_handles_pass_through_witness :
  (run (start stub42) ops_gate).1 !! 2 = Some (OAccessor acc42) /\
  window_handle acc42 = window_handle stub42 /\
  display_handle acc42 = display_handle stub42.
Proof.
  split; [reflexivity|].
  apply (accessor_handles_pass_through stub42 ops_gate 2 acc42). reflexivity.
Defined.

Lemma accessor_errors_propagated_witness :
  (run (start stub_failing) ops_gate).1 !! 2
    = Some (OAccessor (mkThreadLocked (mkRawHandleWrapper (mkArc 0 (to_dyn stub_failing))))) /\
  (window_handle (mkThreadLocked (mkRawHandleWrapper (mkArc 0 (to_dyn stub_failing))))
     = Err Unavailable <-> window_handle stub_failing = Err Unavailable) /\
  (display_handle (mkThreadLocked (mkRawHandleWrapper (mkArc 0 (to_dyn stub_failing))))
     = Err Unavailable <-> display_handle stub_failing = Err Unavailable).
Proof.
  split; [reflexivity|].
  apply (accessor_errors_propagated stub_failing ops_gate 2). reflexivity.
Defined.

Lemma accessor_owns_capsule_witness :
  strong (start stub42).2 !! arc_ptr (window cap42) = Some 1 /\
  tl_inner (get_handle cap42 (start stub42).2).1 = cap42 /\
  strong (get_handle cap42 (start stub42).2).2 !! arc_ptr (window cap42) = Some 2 /\
  forall ops : list Op,
    count_accessors (run (start stub42) ops).1 <= count_get_handle ops.
Proof.
  split; [reflexivity|].
  destruct (accessor_owns_capsule (W:=StubWindow) cap42 (start stub42).2 1)
    as (H1 & H2 & H3); [reflexivity|].
  split; [exact H1|]. split; [exact H2|]. intros ops. apply H3.
Defined.

Lemma get_handle_keeps_capsule_witness :
  strong (start stub42).2 !! arc_ptr (window cap42) = Some 1 /\
  get_handle_n 3 cap42 (start stub42).2 =
    (repeat acc42 3,
     mkHeap (<[arc_ptr (window cap42) := 1 + 3]> (strong (start stub42).2))
            (dropped (start stub42).2) (next_loc (start stub42).2)).
Proof.
  split; [reflexivity|].
  apply (get_handle_keeps_capsule cap42 (start stub42).2 1). reflexivity.
Defined.

(** ** Further properties of the module *)

Section HeapLemmas.

Lemma arc_clone_frame {T} (a : Arc T) (h : Heap) (l : loc) :
  l <> arc_ptr a -> unchanged_at l h (arc_clone a h).2.
Proof. intros Hl. split; simpl; [by rewrite lookup_alter_ne|done]. Qed.

Lemma arc_drop_frame {T} (a : Arc T) (h : Heap) (l : loc) :
  l <> arc_ptr a -> unchanged_at l h (arc_drop a h).
Proof.
  intros Hl. unfold arc_drop.
  destruct (strong h !! arc_ptr a) as [[|[|n]]|]; split; simpl; try done.
  - by rewrite lookup_delete_ne.
  - by rewrite lookup_insert_ne.
  - by rewrite lookup_insert_ne.
Qed.

Lemma arc_new_frame {T} (v : T) (h : Heap) (l : loc) :
  l <> next_loc h -> unchanged_at l h (arc_new v h).2.
Proof. intros Hl. split; simpl; [by rewrite lookup_insert_ne|done]. Qed.

Lemma arc_clone_wf {T} (a : Arc T) (h : Heap) :
  heap_wf h -> heap_wf (arc_clone a h).2.
Proof.
  intros Hwf l Hl; simpl in *. destruct (Hwf l Hl) as [Hs Hd]. split; [|done].
  destruct (decide (arc_ptr a = l)) as [->|Hne].
  - by rewrite lookup_alter_eq, Hs.
  - by rewrite lookup_alter_ne.
Qed.

Lemma arc_drop_wf {T} (a : Arc T) (h : Heap) :
  heap_wf h -> heap_wf (arc_drop a h).
Proof.
  intros Hwf l Hl.
  assert (Hn : next_loc (arc_drop a h) = next_loc h)
    by (unfold arc_drop; by destruct (strong h !! arc_ptr a) as [[|[|n]]|]).
  rewrite Hn in Hl. destruct (Hwf l Hl) as [Hs Hd].
  unfold arc_drop.
  destruct (strong h !! arc_ptr a) as [[|[|n]]|] eqn:Ha; simpl; try (split; assumption);
    (destruct (decide (arc_ptr a = l)) as [Heq|Hne];
     [rewrite Heq in Ha; pose proof (eq_trans (eq_sym Hs) Ha); discriminate|]).
  - by rewrite lookup_delete_ne, lookup_insert_ne.
  - by rewrite lookup_insert_ne.
Qed.

Lemma arc_new_wf {T} (v : T) (h : Heap) :
  heap_wf h -> heap_wf (arc_new v h).2.
Proof.
  intros Hwf l Hl; simpl in *.
  rewrite lookup_insert_ne by lia. apply Hwf; lia.
Qed.

(** Dropping [n] accessors of one capsule from the count [S m + n]. *)
Lemma drop_all_repeat (c : RawHandleWrapper) (m n : nat)
  (st dr : gmap loc nat) (nx : loc) :
  drop_all (repeat (mkThreadLocked c) n)
    (mkHeap (<[arc_ptr (window c) := S m + n]> st) dr nx)
  = mkHeap (<[arc_ptr (window c) := S m]> st) dr nx.
Proof.
  unfold drop_all. induction n as [|n IH]; simpl.
  - by rewrite Nat.add_0_r.
  - unfold ThreadLocked_drop, RawHandleWrapper_drop, arc_drop; simpl.
    rewrite lookup_insert_eq, Nat.add_succ_r, insert_insert_eq. exact IH.
Qed.

End HeapLemmas.

Section Extras.
Context {W : Type} `{HasWindowHandle W} `{HasDisplayHandle W}.

(** Cloning a capsule and dropping the clone leaves the heap exactly as it
    was: the clone holds one strong reference and gives it back. *)
Theorem clone_then_drop_restores_heap (c : RawHandleWrapper) (h : Heap) (k : nat)
  (Hk : strong h !! arc_ptr (window c) = Some (S k)) :
  RawHandleWrapper_drop (RawHandleWrapper_clone c h).1 (RawHandleWrapper_clone c h).2 = h.
Proof.
  destruct c as [[p d]], h as [st dr nx]; simpl in *.
  unfold RawHandleWrapper_drop, arc_drop; simpl.
  rewrite lookup_alter_eq, Hk; simpl.
  rewrite insert_alter_eq, insert_id; done.
Qed.

(** The capsule built by [RawHandleWrapper::new] shares the holder's
    allocation, and dropping it leaves the heap exactly as it was before
    the capsule was built. *)
Theorem new_then_drop_restores_heap (ww : WindowWrapper W) (h : Heap) (k : nat)
  (Hk : strong h !! arc_ptr (reference ww) = Some (S k)) :
  exists c, (RawHandleWrapper_new ww h).1 = Ok c /\
    arc_ptr (window c) = arc_ptr (reference ww) /\
    RawHandleWrapper_drop c (RawHandleWrapper_new ww h).2 = h.
Proof.
  eexists; split; [reflexivity|]. split; [reflexivity|].
  destruct ww as [[p v]], h as [st dr nx]; simpl in *.
  unfold RawHandleWrapper_drop, arc_drop; simpl.
  rewrite lookup_alter_eq, Hk; simpl.
  rewrite insert_alter_eq, insert_id; done.
Qed.

(** Gating a live capsule [n] times and dropping all the accessors, in the
    order they were obtained, leaves the heap exactly as it was. *)
Theorem get_handle_n_then_drop_all_restores_heap (c : RawHandleWrapper) (h : Heap)
  (k n : nat) (Hk : strong h !! arc_ptr (window c) = Some (S k)) :
  drop_all (get_handle_n n c h).1 (get_handle_n n c h).2 = h.
Proof.
  rewrite (get_handle_n_spec c n h (S k) Hk); cbn [fst snd].
  rewrite drop_all_repeat.
  destruct h as [st dr nx]; simpl in *. by rewrite insert_id.
Qed.

(** Every operation of the module touches only the allocation its value
    points to: [RawHandleWrapper::new], [clone], [get_handle] and every
    drop leave the strong count and the destruction count of each other
    allocation unchanged, and [WindowWrapper::new] only the fresh one. *)
Theorem operations_touch_only_own_allocation (ww : WindowWrapper W) (x : W)
  (c : RawHandleWrapper) (a : ThreadLockedRawWindowHandleWrapper) (h : Heap) (l : loc) :
  (l <> next_loc h -> unchanged_at l h (WindowWrapper_new x h).2) /\
  (l <> arc_ptr (reference ww) ->
     unchanged_at l h (RawHandleWrapper_new ww h).2 /\
     unchanged_at l h (arc_drop (reference ww) h)) /\
  (l <> arc_ptr (window c) ->
     unchanged_at l h (RawHandleWrapper_clone c h).2 /\
     unchanged_at l h (get_handle c h).2 /\
     unchanged_at l h (RawHandleWrapper_drop c h)) /\
  (l <> arc_ptr (window (tl_inner a)) -> unchanged_at l h (ThreadLocked_drop a h)).
Proof.
  split; [|split; [|split]].
  - apply (arc_new_frame x).
  - intros Hl. split; [apply (arc_clone_frame (reference ww)), Hl|].
    apply arc_drop_frame, Hl.
  - intros Hl. split; [|split].
    + apply (arc_clone_frame (window c)), Hl.
    + apply (arc_clone_frame (window c)), Hl.
    + apply arc_drop_frame, Hl.
  - intros Hl. apply arc_drop_frame, Hl.
Qed.




End Extras.

Lemma clone_then_drop_restores_heap_witness :
  strong (start stub42).2 !! arc_ptr (window cap42) = Some 1 /\
  RawHandleWrapper_drop (RawHandleWrapper_clone cap42 (start stub42).2).1
    (RawHandleWrapper_clone cap42 (start stub42).2).2 = (start stub42).2.
Proof.
  split; [reflexivity|].
  apply (clone_then_drop_restores_heap cap42 (start stub42).2 0). reflexivity.
Defined.

Lemma new_then_drop_restores_heap_witness :
  strong (WindowWrapper_new stub42 empty_heap).2
    !! arc_ptr (reference (WindowWrapper_new stub42 empty_heap).1) = Some 1 /\
  exists c,
    (RawHandleWrapper_new (WindowWrapper_new stub42 empty_heap).1
       (WindowWrapper_new stub42 empty_heap).2).1 = Ok c /\
    arc_ptr (window c) = arc_ptr (reference (WindowWrapper_new stub42 empty_heap).1) /\
    RawHandleWrapper_drop c
      (RawHandleWrapper_new (WindowWrapper_new stub42 empty_heap).1
         (WindowWrapper_new stub42 empty_heap).2).2
    = (WindowWrapper_new stub42 empty_heap).2.
Proof.
  split; [reflexivity|].
  apply (new_then_drop_restores_heap (WindowWrapper_new stub42 empty_heap).1
           (WindowWrapper_new stub42 empty_heap).2 0).
  reflexivity.
Defined.

Lemma get_handle_n_then_drop_all_restores_heap_witness :
  strong (start stub42).2 !! arc_ptr (window cap42) = Some 1 /\
  drop_all (get_handle_n 3 cap42 (start stub42).2).1
    (get_handle_n 3 cap42 (start stub42).2).2 = (start stub42).2.
Proof.
  split; [reflexivity|].
  apply (get_handle_n_then_drop_all_restores_heap cap42 (start stub42).2 0 3).
  reflexivity.
Defined.


